(** * GLB Compressor: a model of [glb_compressor.py]

    The program is a PySide6 window around two calls of the [trimesh]
    library: [trimesh.load(self.filepath, force="scene")] and
    [scene.export(output_path)].  The development embeds the two classes
    of the file, [DragAndDropArea] and [GLBCompressorApp], as functions
    over an explicit world: the attributes of the window, the files on
    disk, the threads that were started and a log of the calls that
    matter for the ordering properties.

    What Python raises is kept as a value: every method runs in a small
    state-and-exception monad, with [try_except] and [try_finally]
    following Python's [try] statement. *)

From Stdlib Require Import ZArith Lia Sorted Ascii DecimalString.
From stdpp Require Import gmap strings list.

Local Open Scope Z_scope.

(** ** Python values *)

(** An exception object: its class and what [str(e)] gives.  The values of
    this type stand for instances of subclasses of Python's [Exception],
    the ones a library call, an attribute lookup or a file operation
    raises. *)
Record Exception := mkException { exc_class : string; exc_str : string }.

Inductive result (A : Type) :=
| Ok (a : A)
| Raise (e : Exception).
Arguments Ok {A} a.
Arguments Raise {A} e.

(** [s.endswith(suffix)] *)
Definition endswith (s suffix : string) : bool :=
  let n := String.length s in
  let k := String.length suffix in
  if (k <=? n)%nat
  then String.eqb (String.substring (n - k) k s) suffix
  else false.

(** Truth value of a [str]: only the empty string is falsy. *)
Definition truthy (s : string) : bool :=
  match s with
  | EmptyString => false
  | String _ _ => true
  end.

Fixpoint has_sep (p : string) : bool :=
  match p with
  | EmptyString => false
  | String c r => if Ascii.eqb c "/"%char then true else has_sep r
  end.

(** [os.path.basename(p)] (posixpath): what follows the last slash. *)
Fixpoint basename (p : string) : string :=
  match p with
  | EmptyString => EmptyString
  | String c r =>
      if has_sep r then basename r
      else if Ascii.eqb c "/"%char then r else String c r
  end.

(** [f"{value}"] for an [int]. *)
Definition str_of_int (v : Z) : string := NilZero.string_of_int (Z.to_int v).

(** ** Qt widgets, as far as the program uses them *)

(** [QSlider]: [QAbstractSlider] keeps [minimum <= value <= maximum];
    [setRange] raises a maximum below the minimum and re-bounds the value,
    [setValue] bounds its argument: a value outside the range is clamped,
    not rejected.  A new slider has range 0..99 and value 0. *)
Record QSlider := mkQSlider { minimum : Z; maximum : Z; value : Z }.

Definition bound (lo hi v : Z) : Z := Z.max lo (Z.min hi v).

Definition QSlider_new : QSlider := mkQSlider 0 99 0.

Definition setRange (lo hi : Z) (s : QSlider) : QSlider :=
  let hi' := Z.max lo hi in
  mkQSlider lo hi' (bound lo hi' (value s)).

Definition setValue (v : Z) (s : QSlider) : QSlider :=
  mkQSlider (minimum s) (maximum s) (bound (minimum s) (maximum s) v).

(** [QProgressBar.setValue] on the default range 0..100: a value outside
    the range is ignored. *)
Definition QProgressBar_setValue (v : Z) (old : Z) : Z :=
  if (0 <=? v) && (v <=? 100) then v else old.

(** A URL of a drop: the program only asks for [toLocalFile()]. *)
Record QUrl := mkQUrl { toLocalFile : string }.

(** What [parentWidget()] of the drop area can be: the application window,
    which has [set_status_message], or some other widget, which has not. *)
Inductive Widget :=
| AppWindow
| PlainWidget.

(** ** The world *)

(** The attributes of a [GLBCompressorApp] object.  [filepath = None] is
    the attribute not being set on the object. *)
Record GLBCompressorApp := mkApp {
  filepath : option string;
  file_label : string;
  log_area : list string;
  slider_label : string;
  compression_slider : QSlider;
  progress_bar : Z;
  compress_button : bool
}.

(** Calls recorded in the order they happen. *)
Inductive call :=
| load_glb_file_called (p : string)
| update_progress_called (v : Z) (message : string)
| trimesh_load_called (p : string)
| scene_export_called (p : string).

Record World := mkWorld {
  window : GLBCompressorApp;
  disk : gmap string (list Byte.byte);
  started : list string;
  calls : list call
}.

(** The part of [trimesh] the program calls.  [load] reads the disk,
    [export] may change it, and both may raise. *)
Record Trimesh := mkTrimesh {
  Scene : Type;
  load : string -> gmap string (list Byte.byte) -> result Scene;
  export : Scene -> string -> gmap string (list Byte.byte)
           -> result unit * gmap string (list Byte.byte)
}.

(** ** The monad of methods *)

Definition M (A : Type) : Type := World -> result A * World.

Definition ret {A} (a : A) : M A := fun w => (Ok a, w).

Definition bind {A B} (m : M A) (k : A -> M B) : M B :=
  fun w =>
    match m w with
    | (Ok a, w') => k a w'
    | (Raise e, w') => (Raise e, w')
    end.

Definition raise {A} (e : Exception) : M A := fun w => (Raise e, w).

Notation "x <- m ;; k" := (bind m (fun x => k))
  (at level 90, m at level 80, right associativity).
Notation "m ;;; k" := (bind m (fun _ => k))
  (at level 90, right associativity).

(** [try: body except Exception as e: handler e] *)
Definition try_except {A} (body : M A) (handler : Exception -> M A) : M A :=
  fun w =>
    match body w with
    | (Ok a, w') => (Ok a, w')
    | (Raise e, w') => handler e w'
    end.

(** [try: body finally: final] *)
Definition try_finally {A} (body : M A) (final : M unit) : M A :=
  fun w =>
    match body w with
    | (r, w') =>
        match final w' with
        | (Ok _, w'') => (r, w'')
        | (Raise e, w'') => (Raise e, w'')
        end
    end.

Definition modify_window (f : GLBCompressorApp -> GLBCompressorApp) : M unit :=
  fun w => (Ok tt, mkWorld (f (window w)) (disk w) (started w) (calls w)).

Definition record_call (c : call) : M unit :=
  fun w => (Ok tt, mkWorld (window w) (disk w) (started w) (calls w ++ [c])).

(** ** Attribute updates *)

Definition set_filepath (p : string) (a : GLBCompressorApp) :=
  mkApp (Some p) (file_label a) (log_area a) (slider_label a)
        (compression_slider a) (progress_bar a) (compress_button a).

Definition set_file_label (t : string) (a : GLBCompressorApp) :=
  mkApp (filepath a) t (log_area a) (slider_label a)
        (compression_slider a) (progress_bar a) (compress_button a).

Definition log_append (m : string) (a : GLBCompressorApp) :=
  mkApp (filepath a) (file_label a) (log_area a ++ [m]) (slider_label a)
        (compression_slider a) (progress_bar a) (compress_button a).

Definition set_slider_label (t : string) (a : GLBCompressorApp) :=
  mkApp (filepath a) (file_label a) (log_area a) t
        (compression_slider a) (progress_bar a) (compress_button a).

Definition set_slider (s : QSlider) (a : GLBCompressorApp) :=
  mkApp (filepath a) (file_label a) (log_area a) (slider_label a)
        s (progress_bar a) (compress_button a).

Definition set_progress_bar (v : Z) (a : GLBCompressorApp) :=
  mkApp (filepath a) (file_label a) (log_area a) (slider_label a)
        (compression_slider a) (QProgressBar_setValue v (progress_bar a))
        (compress_button a).

Definition setEnabled (b : bool) (a : GLBCompressorApp) :=
  mkApp (filepath a) (file_label a) (log_area a) (slider_label a)
        (compression_slider a) (progress_bar a) b.

(** ** [GLBCompressorApp] *)

(** [__init__]: the attributes after the constructor.  [self.filepath] is
    not assigned there. *)
Definition GLBCompressorApp__init__ : GLBCompressorApp :=
  mkApp None
        "No file loaded."
        []
        "Compression Level: 50%"
        (setValue 50 (setRange 10 100 QSlider_new))
        (QProgressBar_setValue 0 0)
        true.

Definition initial_world (files : gmap string (list Byte.byte)) : World :=
  mkWorld GLBCompressorApp__init__ files [] [].

Definition set_status_message (message : string) : M unit :=
  modify_window (log_append message).

Definition update_progress (v : Z) (message : string) : M unit :=
  record_call (update_progress_called v message) ;;;
  modify_window (set_progress_bar v) ;;;
  modify_window (log_append message).

Definition show_about_dialog : M unit :=
  modify_window (log_append
    "GLB Compressor: Drag and drop GLB files, adjust compression, and save compressed files.").

Definition load_glb_file (path : string) : M unit :=
  record_call (load_glb_file_called path) ;;;
  modify_window (set_filepath path) ;;;
  modify_window (set_file_label ("Loaded file: " +:+ basename path)) ;;;
  set_status_message ("Loaded file: " +:+ basename path).

(** [chosen] is the path [QFileDialog.getOpenFileName] returns, empty when
    the dialog is cancelled. *)
Definition open_file_dialog (chosen : string) : M unit :=
  if truthy chosen then load_glb_file chosen else ret tt.

Definition update_slider_label : M unit :=
  fun w =>
    let v := value (compression_slider (window w)) in
    modify_window
      (set_slider_label ("Compression Level: " +:+ str_of_int v +:+ "%")) w.

(** The slider is asked for the value [v]: [QAbstractSlider.setValue]
    bounds it and emits [valueChanged], which is connected to
    [update_slider_label], when the value changed. *)
Definition slider_moved (v : Z) : M unit :=
  fun w =>
    let old := compression_slider (window w) in
    let new := setValue v old in
    if Z.eqb (value new) (value old) then (Ok tt, w)
    else (modify_window (set_slider new) ;;; update_slider_label) w.

Definition AttributeError (obj attr : string) : Exception :=
  mkException "AttributeError"
    ("'" +:+ obj +:+ "' object has no attribute '" +:+ attr +:+ "'").

(** Reading [self.filepath]. *)
Definition get_filepath : M string :=
  fun w =>
    match filepath (window w) with
    | Some p => (Ok p, w)
    | None => (Raise (AttributeError "GLBCompressorApp" "filepath"), w)
    end.

(** [threading.Thread(target=self.perform_compression, args=(output_file,)).start()]:
    the thread is started; when it runs is up to the scheduler. *)
Definition start_thread (output_file : string) : M unit :=
  fun w =>
    (Ok tt, mkWorld (window w) (disk w) (started w ++ [output_file]) (calls w)).

(** [chosen] is the path [QFileDialog.getSaveFileName] returns, empty when
    the dialog is cancelled. *)
Definition compress_file (chosen : string) : M unit :=
  p <- get_filepath ;;
  if negb (truthy p) then set_status_message "No GLB file loaded to compress."
  else if truthy chosen then start_thread chosen
  else ret tt.

(** ** [DragAndDropArea] *)

Record DragAndDropArea := mkArea {
  callback : string -> M unit;
  parentWidget : option Widget
}.

Definition dropEvent (self : DragAndDropArea) (urls : list QUrl) : M unit :=
  match urls with
  | [] => ret tt
  | u :: _ =>
      let file_path := toLocalFile u in
      if endswith file_path ".glb" then callback self file_path
      else
        match parentWidget self with
        | None => ret tt
        | Some AppWindow =>
            set_status_message "Invalid file type. Only .glb files are supported."
        | Some PlainWidget =>
            raise (AttributeError "PySide6.QtWidgets.QWidget" "set_status_message")
        end
  end.

(** A drop area whose callback is [load_glb_file], with the parent widget
    Qt reports for it. *)
Definition drag_drop_area (parent : option Widget) : DragAndDropArea :=
  mkArea load_glb_file parent.

(** The drop area as [GLBCompressorApp.__init__] leaves it.  It is created
    with [parent=self], and then [layout.addWidget(self.drag_drop_area)]
    puts it into [QVBoxLayout(main_widget)]: a layout makes the widget it
    is installed on the parent of what it manages, so [parentWidget()] is
    the central [QWidget], which has no [set_status_message]. *)
Definition window_drag_drop_area : DragAndDropArea :=
  drag_drop_area (Some PlainWidget).

(** ** The compression and the event loop *)

(** What can happen to a running window: a method is called by a signal,
    by a drop or directly, or a started thread gets to run. *)
Inductive event :=
| OpenFileDialog (chosen : string)
| LoadGlbFile (path : string)
| Dropped (urls : list QUrl)
| SliderMoved (v : Z)
| CompressClicked (chosen : string)
| AboutClicked
| ThreadRuns.

Section WithLibrary.

Variable trimesh : Trimesh.

(** [trimesh.load(p, force="scene")] *)
Definition trimesh_load (p : string) : M (Scene trimesh) :=
  record_call (trimesh_load_called p) ;;;
  (fun w => (load trimesh p (disk w), w)).

(** [scene.export(p)] *)
Definition scene_export (scene : Scene trimesh) (p : string) : M unit :=
  record_call (scene_export_called p) ;;;
  (fun w =>
     match export trimesh scene p (disk w) with
     | (r, d) => (r, mkWorld (window w) d (started w) (calls w))
     end).

Definition perform_compression (output_path : string) : M unit :=
  try_finally
    (try_except
       (update_progress 10 "Loading GLB file..." ;;;
        p <- get_filepath ;;
        scene <- trimesh_load p ;;
        update_progress 90 "Saving compressed file..." ;;;
        scene_export scene output_path ;;;
        update_progress 100 "Compression complete." ;;;
        set_status_message ("Compressed file saved: " +:+ output_path))
       (fun e => set_status_message ("Compression failed: " +:+ exc_str e)))
    (modify_window (setEnabled true)).

(** A started thread runs [perform_compression] in one piece, the oldest
    thread first. *)
Definition handler (parent : option Widget) (ev : event) : M unit :=
  match ev with
  | OpenFileDialog chosen => open_file_dialog chosen
  | LoadGlbFile path => load_glb_file path
  | Dropped urls => dropEvent (drag_drop_area parent) urls
  | SliderMoved v => slider_moved v
  | CompressClicked chosen => compress_file chosen
  | AboutClicked => show_about_dialog
  | ThreadRuns =>
      fun w =>
        match started w with
        | [] => (Ok tt, w)
        | out :: rest =>
            perform_compression out
              (mkWorld (window w) (disk w) rest (calls w))
        end
  end.

(** An exception that leaves a handler is printed and the loop goes on
    with the world as the handler left it. *)
Definition step (parent : option Widget) (w : World) (ev : event) : World :=
  snd (handler parent ev w).

Definition run (parent : option Widget) (evs : list event) (w : World) : World :=
  fold_left (step parent) evs w.

(** The file a run of [perform_compression] leaves at [output_path]. *)
Definition output (output_path : string) (w : World) : option (list Byte.byte) :=
  disk (snd (perform_compression output_path w)) !! output_path.

Definition output_size (output_path : string) (w : World) : option nat :=
  length <$> output output_path w.

(** A loaded file that the library reads and writes back: the run has
    an output. *)
Definition valid_input (output_path : string) (w : World) : Prop :=
  exists p scene d,
    filepath (window w) = Some p /\
    load trimesh p (disk w) = Ok scene /\
    export trimesh scene output_path (disk w) = (Ok tt, d) /\
    is_Some (d !! output_path).

End WithLibrary.

(** ** Observations *)

(** The world with the slider asked for level [l]. *)
Definition at_level (l : Z) (w : World) : World := snd (slider_moved l w).

(** The level a run would find on the slider. *)
Definition level (w : World) : Z := value (compression_slider (window w)).

(** The slider as the constructor configures it: range 10..100. *)
Definition slider_in_range (w : World) : Prop :=
  minimum (compression_slider (window w)) = 10 /\
  maximum (compression_slider (window w)) = 100 /\
  10 <= level w <= 100.

Definition progress_values (cs : list call) : list Z :=
  omap (fun c => match c with
                 | update_progress_called v _ => Some v
                 | _ => None
                 end) cs.

(** The output at level 100 is strictly smaller than the output at level
    10. *)
Definition level100_strictly_smaller (trimesh : Trimesh)
    (output_path : string) (w : World) : Prop :=
  exists n100 n10 : nat,
    output_size trimesh output_path (at_level 100 w) = Some n100 /\
    output_size trimesh output_path (at_level 10 w) = Some n10 /\
    (n100 < n10)%nat.

(** The stored path, when there is one, is the argument of a recorded call
    of [load_glb_file]; when there is none, no such call was made. *)
Definition filepath_was_loaded (w : World) : Prop :=
  match filepath (window w) with
  | Some p => load_glb_file_called p ∈ calls w
  | None => forall p, load_glb_file_called p ∉ calls w
  end.

(** ** [resource_path] *)

(** What [resource_path] reads of the interpreter: [getattr(sys, 'frozen',
    False)] as a truth value, the attribute [sys._MEIPASS] when it is set,
    and the absolute path of the current directory,
    [os.path.abspath(".")]. *)
Record Sys := mkSys {
  frozen : bool;
  _MEIPASS : option string;
  abspath_dot : string
}.

(** [os.path.join(a, b)] (posixpath). *)
Definition join (a b : string) : string :=
  if String.prefix "/" b then b
  else if negb (truthy a) || endswith a "/" then a +:+ b
  else a +:+ "/" +:+ b.

Definition resource_path (sys : Sys) (relative_path : string) : result string :=
  if frozen sys
  then match _MEIPASS sys with
       | Some base_path => Ok (join base_path relative_path)
       | None =>
           Raise (mkException "AttributeError"
                    "module 'sys' has no attribute '_MEIPASS'")
       end
  else Ok (join (abspath_dot sys) relative_path).

(** ** Predicates on the world *)

(** The file label shows the stored path, or that there is none. *)
Definition file_label_follows (w : World) : Prop :=
  file_label (window w) =
    match filepath (window w) with
    | None => "No file loaded."
    | Some p => "Loaded file: " +:+ basename p
    end.

(** The slider label shows the value of the slider. *)
Definition slider_label_shows_value (w : World) : Prop :=
  slider_label (window w) = "Compression Level: " +:+ str_of_int (level w) +:+ "%".

(** [load_glb_file] called directly, not through the dialog or a drop. *)
Definition is_direct_load (ev : event) : bool :=
  match ev with
  | LoadGlbFile _ => true
  | _ => false
  end.

Definition no_file_message : string := "No GLB file loaded to compress.".

(** A stored path is never empty and the message of the guard of
    [compress_file] is not in the log. *)
Definition guard_never_fires (w : World) : Prop :=
  (forall p, filepath (window w) = Some p -> truthy p = true) /\
  no_file_message ∉ log_area (window w).

(** The calls of [trimesh]. *)
Definition is_library_call (c : call) : bool :=
  match c with
  | trimesh_load_called _ | scene_export_called _ => true
  | _ => false
  end.

(** The progress bar shows one of the four values the program sets; it
    shows 100 only after a run that completed and 0 only when no run has
    reported progress. *)
Definition bar_tells_the_truth (w : World) : Prop :=
  (progress_bar (window w) = 0 \/ progress_bar (window w) = 10 \/
   progress_bar (window w) = 90 \/ progress_bar (window w) = 100) /\
  (progress_bar (window w) = 100 -> "Compression complete." ∈ log_area (window w)) /\
  (progress_bar (window w) = 0 ->
   forall v m, update_progress_called v m ∉ calls w).

(** The paths [load_glb_file] was called with, oldest first. *)
Definition loads_of (cs : list call) : list string :=
  omap (fun c => match c with
                 | load_glb_file_called p => Some p
                 | _ => None
                 end) cs.

(** The path of the latest call of [load_glb_file]. *)
Definition latest_load (cs : list call) : option string := last (loads_of cs).

(** The stored path is the path of the latest load, and every call of
    [trimesh.load] got the path of the latest load before it. *)
Definition threads_load_latest (w : World) : Prop :=
  latest_load (calls w) = filepath (window w) /\
  forall before p after,
    calls w = before ++ trimesh_load_called p :: after ->
    latest_load before = Some p.

(** ** A small library instance

    Enough of a loader to run the model on concrete files: it refuses a
    missing file and a file that does not start with the four magic bytes
    of a GLB container, and it writes back the bytes it read. *)

Fixpoint starts_with (prefix bytes : list Byte.byte) : bool :=
  match prefix, bytes with
  | [], _ => true
  | x :: prefix', y :: bytes' =>
      if Byte.eqb x y then starts_with prefix' bytes' else false
  | _ :: _, [] => false
  end.

Definition passthrough : Trimesh :=
  mkTrimesh (list Byte.byte)
    (fun p d =>
       match d !! p with
       | None => Raise (mkException "ValueError" ("string is not a file: " +:+ p))
       | Some bytes =>
           if starts_with (String.list_byte_of_string "glTF") bytes
           then Ok bytes
           else Raise (mkException "ValueError" "incorrect header on GLB file")
       end)
    (fun scene p d => (Ok tt, <[p := scene]> d)).

Definition sample_files : gmap string (list Byte.byte) :=
  <["a.glb" := String.list_byte_of_string "glTF-first-model"]>
    (<["b.glb" := String.list_byte_of_string "glTF-second"]>
       (<["broken.glb" := String.list_byte_of_string "glXX-no-magic"]> ∅)).

(** The window after [a.glb] was loaded. *)
Definition loaded_a : World :=
  run passthrough (Some AppWindow) [LoadGlbFile "a.glb"] (initial_world sample_files).

(** The window after [broken.glb] was loaded. *)
Definition loaded_broken : World :=
  run passthrough (Some AppWindow) [LoadGlbFile "broken.glb"] (initial_world sample_files).

(** * Properties *)

Ltac unfold_methods :=
  unfold perform_compression, try_finally, try_except, update_progress,
    set_status_message, trimesh_load, scene_export, get_filepath,
    modify_window, record_call, start_thread, bind, ret, raise.

Ltac unfold_handlers :=
  unfold step, handler, dropEvent, drag_drop_area, open_file_dialog,
    load_glb_file, compress_file, show_about_dialog, slider_moved,
    update_slider_label; cbn [callback parentWidget].

(** Case analysis along a run: is the path set, does the load succeed,
    does the export succeed. *)
Ltac by_cases :=
  unfold_methods; cbn;
  repeat match goal with
    | |- context [filepath (window ?w)] =>
        is_var w; destruct (filepath (window w)) eqn:?; cbn
    | |- context [load ?t ?p (disk ?w)] =>
        is_var w; destruct (load t p (disk w)) eqn:?; cbn
    | |- context [export ?t ?s ?p (disk ?w)] =>
        is_var w; destruct (export t s p (disk w)) as [[[]|?] ?] eqn:?; cbn
    end;
  try reflexivity.

(** ** The model on concrete inputs *)

Example endswith_glb : endswith "/home/u/model.glb" ".glb" = true.
Proof. reflexivity. Qed.

Example endswith_upper_case : endswith "model.GLB" ".glb" = false.
Proof. reflexivity. Qed.

Example endswith_shorter : endswith "glb" ".glb" = false.
Proof. reflexivity. Qed.

Example basename_of_path : basename "/home/u/model.glb" = "model.glb".
Proof. reflexivity. Qed.

Example slider_after_construction :
  compression_slider GLBCompressorApp__init__ = mkQSlider 10 100 50.
Proof. reflexivity. Qed.

Example slider_label_follows :
  slider_label (window (at_level 75 (initial_world sample_files)))
    = "Compression Level: 75%".
Proof. reflexivity. Qed.

(** A file is dropped, the button is clicked, the thread runs. *)
Example drop_click_run :
  let w := run passthrough (Some AppWindow)
             [Dropped [mkQUrl "a.glb"]; CompressClicked "out.glb"; ThreadRuns]
             (initial_world sample_files) in
  log_area (window w) =
    ["Loaded file: a.glb"; "Loading GLB file..."; "Saving compressed file...";
     "Compression complete."; "Compressed file saved: out.glb"] /\
  progress_bar (window w) = 100 /\
  disk w !! "out.glb" = Some (String.list_byte_of_string "glTF-first-model").
Proof. vm_compute. repeat split. Qed.

(** ** What a run of [perform_compression] does, field by field *)

Section Runs.

Variable trimesh : Trimesh.
Variable output_path : string.
Variable w : World.

Let w' := snd (perform_compression trimesh output_path w).

Lemma perform_compression_returns :
  fst (perform_compression trimesh output_path w) = Ok tt.
Proof. by_cases. Qed.

Lemma perform_compression_button : compress_button (window w') = true.
Proof. subst w'. by_cases. Qed.

Lemma perform_compression_filepath :
  filepath (window w') = filepath (window w).
Proof. subst w'. by_cases; congruence. Qed.

Lemma perform_compression_slider :
  compression_slider (window w') = compression_slider (window w).
Proof. subst w'. by_cases. Qed.

Lemma perform_compression_disk :
  disk w' =
  match filepath (window w) with
  | None => disk w
  | Some p =>
      match load trimesh p (disk w) with
      | Raise _ => disk w
      | Ok scene => snd (export trimesh scene output_path (disk w))
      end
  end.
Proof. subst w'. by_cases. Qed.

Lemma perform_compression_calls :
  calls w' = calls w ++
  match filepath (window w) with
  | None => [update_progress_called 10 "Loading GLB file..."]
  | Some p =>
      match load trimesh p (disk w) with
      | Raise _ =>
          [update_progress_called 10 "Loading GLB file...";
           trimesh_load_called p]
      | Ok scene =>
          match fst (export trimesh scene output_path (disk w)) with
          | Raise _ =>
              [update_progress_called 10 "Loading GLB file...";
               trimesh_load_called p;
               update_progress_called 90 "Saving compressed file...";
               scene_export_called output_path]
          | Ok _ =>
              [update_progress_called 10 "Loading GLB file...";
               trimesh_load_called p;
               update_progress_called 90 "Saving compressed file...";
               scene_export_called output_path;
               update_progress_called 100 "Compression complete."]
          end
      end
  end.
Proof. subst w'. by_cases; by rewrite <- ?(assoc_L (++)). Qed.

Lemma perform_compression_log :
  log_area (window w') = log_area (window w) ++
  match filepath (window w) with
  | None =>
      ["Loading GLB file...";
       "Compression failed: " +:+
         exc_str (AttributeError "GLBCompressorApp" "filepath")]
  | Some p =>
      match load trimesh p (disk w) with
      | Raise e =>
          ["Loading GLB file..."; "Compression failed: " +:+ exc_str e]
      | Ok scene =>
          match fst (export trimesh scene output_path (disk w)) with
          | Raise e =>
              ["Loading GLB file..."; "Saving compressed file...";
               "Compression failed: " +:+ exc_str e]
          | Ok _ =>
              ["Loading GLB file..."; "Saving compressed file...";
               "Compression complete.";
               "Compressed file saved: " +:+ output_path]
          end
      end
  end.
Proof. subst w'. by_cases; by rewrite <- ?(assoc_L (++)). Qed.

End Runs.

(** ** The slider and the run *)

Lemma slider_moved_slider v w :
  compression_slider (window (snd (slider_moved v w)))
    = setValue v (compression_slider (window w)).
Proof.
  unfold slider_moved.
  destruct (Z.eqb_spec (value (setValue v (compression_slider (window w))))
                       (value (compression_slider (window w)))) as [E|_].
  - cbn in *. destruct (compression_slider (window w)); cbn in *.
    unfold setValue; cbn. by rewrite E.
  - by unfold_methods.
Qed.

Lemma at_level_level l w :
  slider_in_range w -> 10 <= l <= 100 -> level (at_level l w) = l.
Proof.
  intros (Hmin & Hmax & _) Hl. unfold level, at_level.
  rewrite slider_moved_slider. cbn. rewrite Hmin, Hmax. unfold bound. lia.
Qed.

Lemma at_level_filepath l w :
  filepath (window (at_level l w)) = filepath (window w).
Proof.
  unfold at_level, slider_moved.
  destruct (Z.eqb _ _); [done|]. by unfold_methods.
Qed.

Lemma at_level_disk l w : disk (at_level l w) = disk w.
Proof.
  unfold at_level, slider_moved.
  destruct (Z.eqb _ _); [done|]. by unfold_methods.
Qed.

(** The file a run leaves behind is decided by the stored path and the
    disk: nothing else of the window is read. *)
Lemma output_from_filepath_and_disk trimesh output_path w1 w2 :
  filepath (window w1) = filepath (window w2) ->
  disk w1 = disk w2 ->
  output trimesh output_path w1 = output trimesh output_path w2.
Proof.
  intros Hp Hd. unfold output.
  by rewrite !perform_compression_disk, Hp, Hd.
Qed.

Lemma output_at_level trimesh output_path l w :
  output trimesh output_path (at_level l w) = output trimesh output_path w.
Proof.
  apply output_from_filepath_and_disk;
    [apply at_level_filepath | apply at_level_disk].
Qed.

Lemma valid_input_output trimesh output_path w :
  valid_input trimesh output_path w ->
  is_Some (output trimesh output_path w).
Proof.
  intros (p & scene & d & Hp & Hl & He & Hd).
  unfold output. by rewrite perform_compression_disk, Hp, Hl, He.
Qed.

Lemma loaded_a_valid : valid_input passthrough "out.glb" loaded_a.
Proof.
  exists "a.glb", (String.list_byte_of_string "glTF-first-model"),
    (<["out.glb" := String.list_byte_of_string "glTF-first-model"]> sample_files).
  split; [reflexivity|]. split; [vm_compute; reflexivity|].
  split; [reflexivity|]. by rewrite lookup_insert_eq.
Qed.

Lemma loaded_a_slider : slider_in_range loaded_a.
Proof. repeat split; try reflexivity; vm_compute; discriminate. Qed.

(** C1, as stated, fails: with [a.glb] loaded and the slider at 100 and at
    10, both runs write a file, and the file of level 100 is not strictly
    smaller than the file of level 10. *)
Lemma level100_not_strictly_smaller :
  valid_input passthrough "out.glb" loaded_a /\
  level (at_level 100 loaded_a) = 100 /\
  level (at_level 10 loaded_a) = 10 /\
  ~ level100_strictly_smaller passthrough "out.glb" loaded_a.
Proof.
  split; [apply loaded_a_valid|].
  split; [reflexivity|]. split; [reflexivity|].
  intros (n100 & n10 & H100 & H10 & Hlt).
  unfold output_size in *. rewrite output_at_level in H100, H10.
  rewrite H100 in H10. injection H10 as ->. lia.
Qed.

(** C1, amended: for every valid input the run with the slider at 100
    writes the same bytes as the run with the slider at 10, so the two
    outputs have the same size: [perform_compression] does not read the
    slider. *)
Theorem level100_same_output trimesh output_path w :
  valid_input trimesh output_path w ->
  slider_in_range w ->
  level (at_level 100 w) = 100 /\
  level (at_level 10 w) = 10 /\
  exists bytes,
    output trimesh output_path (at_level 100 w) = Some bytes /\
    output trimesh output_path (at_level 10 w) = Some bytes /\
    output_size trimesh output_path (at_level 100 w) = Some (length bytes) /\
    output_size trimesh output_path (at_level 10 w) = Some (length bytes).
Proof.
  intros [bytes Hb]%valid_input_output Hs.
  split; [apply at_level_level; [done|lia]|].
  split; [apply at_level_level; [done|lia]|].
  exists bytes. unfold output_size. by rewrite !output_at_level, Hb.
Qed.

Lemma level100_same_output_witness :
  level (at_level 100 loaded_a) = 100 /\
  level (at_level 10 loaded_a) = 10 /\
  exists bytes,
    output passthrough "out.glb" (at_level 100 loaded_a) = Some bytes /\
    output passthrough "out.glb" (at_level 10 loaded_a) = Some bytes /\
    output_size passthrough "out.glb" (at_level 100 loaded_a) = Some (length bytes) /\
    output_size passthrough "out.glb" (at_level 10 loaded_a) = Some (length bytes).
Proof.
  apply (level100_same_output passthrough "out.glb" loaded_a).
  - apply loaded_a_valid.
  - apply loaded_a_slider.
Defined.

(** C2: for a valid input and levels [10 <= l1 <= l2 <= 100], the slider
    takes both levels, both runs write a file and the file of [l2] is not
    larger than the file of [l1]. *)
Theorem output_size_non_increasing trimesh output_path w l1 l2 :
  valid_input trimesh output_path w ->
  slider_in_range w ->
  10 <= l1 -> l1 <= l2 -> l2 <= 100 ->
  level (at_level l1 w) = l1 /\
  level (at_level l2 w) = l2 /\
  exists n1 n2 : nat,
    output_size trimesh output_path (at_level l1 w) = Some n1 /\
    output_size trimesh output_path (at_level l2 w) = Some n2 /\
    (n2 <= n1)%nat.
Proof.
  intros [bytes Hb]%valid_input_output Hs H1 H12 H2.
  split; [apply at_level_level; [done|lia]|].
  split; [apply at_level_level; [done|lia]|].
  exists (length bytes), (length bytes).
  unfold output_size. by rewrite !output_at_level, Hb.
Qed.

Lemma output_size_non_increasing_witness :
  level (at_level 20 loaded_a) = 20 /\
  level (at_level 80 loaded_a) = 80 /\
  exists n1 n2 : nat,
    output_size passthrough "out.glb" (at_level 20 loaded_a) = Some n1 /\
    output_size passthrough "out.glb" (at_level 80 loaded_a) = Some n2 /\
    (n2 <= n1)%nat.
Proof.
  apply (output_size_non_increasing passthrough "out.glb" loaded_a 20 80).
  - apply loaded_a_valid.
  - apply loaded_a_slider.
  - lia.
  - lia.
  - lia.
Defined.

(** ** Failure, order and clean-up of a run *)

(** C3: when the library refuses the stored file, the run ends with the
    report "Compression failed: ..." in the log, the export is not called
    and the disk is what it was. *)
Theorem load_failure_writes_nothing trimesh output_path w p e :
  filepath (window w) = Some p ->
  load trimesh p (disk w) = Raise e ->
  let r := perform_compression trimesh output_path w in
  fst r = Ok tt /\
  disk (snd r) = disk w /\
  calls (snd r) = calls w ++
    [update_progress_called 10 "Loading GLB file..."; trimesh_load_called p] /\
  log_area (window (snd r)) = log_area (window w) ++
    ["Loading GLB file..."; "Compression failed: " +:+ exc_str e].
Proof.
  intros Hp Hl r. subst r.
  rewrite perform_compression_returns, perform_compression_disk,
    perform_compression_calls, perform_compression_log, Hp, Hl.
  done.
Qed.

Lemma load_failure_writes_nothing_witness :
  let r := perform_compression passthrough "out.glb" loaded_broken in
  fst r = Ok tt /\
  disk (snd r) = disk loaded_broken /\
  calls (snd r) = calls loaded_broken ++
    [update_progress_called 10 "Loading GLB file...";
     trimesh_load_called "broken.glb"] /\
  log_area (window (snd r)) = log_area (window loaded_broken) ++
    ["Loading GLB file...";
     "Compression failed: " +:+
       exc_str (mkException "ValueError" "incorrect header on GLB file")].
Proof.
  apply (load_failure_writes_nothing passthrough "out.glb" loaded_broken
           "broken.glb" (mkException "ValueError" "incorrect header on GLB file")).
  - reflexivity.
  - vm_compute. reflexivity.
Defined.

(** C4, as stated, fails.  Two runs are started by the same click in the
    same world (the file [a.glb] loaded, the same level, the same output
    path); in the second another file is loaded before the thread reads
    [self.filepath].  The two runs leave different files. *)
Lemma stored_filepath_read_at_run_time :
  let quiet :=
    run passthrough (Some AppWindow)
        [CompressClicked "out.glb"; ThreadRuns] loaded_a in
  let raced :=
    run passthrough (Some AppWindow)
        [CompressClicked "out.glb"; LoadGlbFile "b.glb"; ThreadRuns] loaded_a in
  disk quiet !! "out.glb" = Some (String.list_byte_of_string "glTF-first-model") /\
  disk raced !! "out.glb" = Some (String.list_byte_of_string "glTF-second") /\
  disk quiet !! "out.glb" <> disk raced !! "out.glb".
Proof.
  assert (Hq : disk (run passthrough (Some AppWindow)
                       [CompressClicked "out.glb"; ThreadRuns] loaded_a)
               !! "out.glb"
               = Some (String.list_byte_of_string "glTF-first-model"))
    by (vm_compute; reflexivity).
  assert (Hr : disk (run passthrough (Some AppWindow)
                       [CompressClicked "out.glb"; LoadGlbFile "b.glb"; ThreadRuns]
                       loaded_a)
               !! "out.glb"
               = Some (String.list_byte_of_string "glTF-second"))
    by (vm_compute; reflexivity).
  cbv zeta. rewrite Hq, Hr. repeat split. discriminate.
Qed.

(** The same without a second thread of control: one call, one argument,
    one disk, two values of the stored attribute, two results. *)
Lemma output_depends_on_stored_filepath :
  let w1 := loaded_a in
  let w2 := run passthrough (Some AppWindow) [LoadGlbFile "b.glb"] loaded_a in
  disk w1 = disk w2 /\
  output passthrough "out.glb" w1 <> output passthrough "out.glb" w2.
Proof.
  split; [reflexivity|].
  assert (H1 : output passthrough "out.glb" loaded_a
               = Some (String.list_byte_of_string "glTF-first-model"))
    by (vm_compute; reflexivity).
  assert (H2 : output passthrough "out.glb"
                 (run passthrough (Some AppWindow) [LoadGlbFile "b.glb"] loaded_a)
               = Some (String.list_byte_of_string "glTF-second"))
    by (vm_compute; reflexivity).
  rewrite H1, H2. discriminate.
Qed.

(** C4, amended: two runs that start with the same stored path and the
    same disk and get the same output path return the same way and leave
    the same disk, whatever the slider, the log, the progress bar and the
    button are; the stored path is read when the run executes, it is not
    a parameter of the call. *)
Theorem perform_compression_deterministic trimesh output_path w1 w2 :
  filepath (window w1) = filepath (window w2) ->
  disk w1 = disk w2 ->
  fst (perform_compression trimesh output_path w1)
    = fst (perform_compression trimesh output_path w2) /\
  disk (snd (perform_compression trimesh output_path w1))
    = disk (snd (perform_compression trimesh output_path w2)) /\
  output trimesh output_path w1 = output trimesh output_path w2.
Proof.
  intros Hp Hd.
  rewrite !perform_compression_returns, !perform_compression_disk, Hp, Hd.
  repeat split. by apply output_from_filepath_and_disk.
Qed.

Lemma perform_compression_deterministic_witness :
  fst (perform_compression passthrough "out.glb" loaded_a)
    = fst (perform_compression passthrough "out.glb" (at_level 100 loaded_a)) /\
  disk (snd (perform_compression passthrough "out.glb" loaded_a))
    = disk (snd (perform_compression passthrough "out.glb" (at_level 100 loaded_a))) /\
  output passthrough "out.glb" loaded_a
    = output passthrough "out.glb" (at_level 100 loaded_a).
Proof.
  apply (perform_compression_deterministic passthrough "out.glb"
           loaded_a (at_level 100 loaded_a)); reflexivity.
Defined.

(** C7: [update_progress] is called by [perform_compression] itself, the
    target of the thread.  The calls a run adds to the record are, in
    order, progress 10, the load, progress 90, the export, progress 100,
    cut short where an exception is raised; the progress values among
    them never decrease. *)
Theorem progress_in_pipeline_order trimesh output_path w :
  exists new,
    calls (snd (perform_compression trimesh output_path w)) = calls w ++ new /\
    Sorted Z.le (progress_values new) /\
    match filepath (window w) with
    | None => new = [update_progress_called 10 "Loading GLB file..."]
    | Some p =>
        match load trimesh p (disk w) with
        | Raise _ =>
            new = [update_progress_called 10 "Loading GLB file...";
                   trimesh_load_called p]
        | Ok scene =>
            match fst (export trimesh scene output_path (disk w)) with
            | Raise _ =>
                new = [update_progress_called 10 "Loading GLB file...";
                       trimesh_load_called p;
                       update_progress_called 90 "Saving compressed file...";
                       scene_export_called output_path]
            | Ok _ =>
                new = [update_progress_called 10 "Loading GLB file...";
                       trimesh_load_called p;
                       update_progress_called 90 "Saving compressed file...";
                       scene_export_called output_path;
                       update_progress_called 100 "Compression complete."]
            end
        end
    end.
Proof.
  eexists. split; [apply perform_compression_calls|].
  destruct (filepath (window w)) as [p|]; cbn.
  - destruct (load trimesh p (disk w)) as [scene|e]; cbn.
    + destruct (fst (export trimesh scene output_path (disk w))); cbn;
        split; try reflexivity;
        repeat (constructor; try lia).
    + split; [repeat (constructor; try lia)|reflexivity].
  - split; [repeat (constructor; try lia)|reflexivity].
Qed.

(** C10: [perform_compression] returns normally on every path, with the
    button enabled; when reading the path, the load or the export raised,
    the last line of the log is "Compression failed: " followed by the
    text of the exception, otherwise it is the line of success. *)
Theorem perform_compression_never_raises trimesh output_path w :
  let r := perform_compression trimesh output_path w in
  fst r = Ok tt /\
  compress_button (window (snd r)) = true /\
  last (log_area (window (snd r))) =
    Some match filepath (window w) with
         | None =>
             "Compression failed: " +:+
               exc_str (AttributeError "GLBCompressorApp" "filepath")
         | Some p =>
             match load trimesh p (disk w) with
             | Raise e => "Compression failed: " +:+ exc_str e
             | Ok scene =>
                 match fst (export trimesh scene output_path (disk w)) with
                 | Raise e => "Compression failed: " +:+ exc_str e
                 | Ok _ => "Compressed file saved: " +:+ output_path
                 end
             end
         end.
Proof.
  intros r. subst r.
  rewrite perform_compression_returns, perform_compression_button,
    perform_compression_log.
  repeat split.
  destruct (filepath (window w)) as [p|]; [|by rewrite last_app].
  destruct (load trimesh p (disk w)) as [scene|e]; [|by rewrite last_app].
  by destruct (fst (export trimesh scene output_path (disk w)));
    rewrite last_app.
Qed.

(** ** Invariants of the event loop *)

Lemma run_invariant trimesh parent (P : World -> Prop) :
  (forall w ev, P w -> P (step trimesh parent w ev)) ->
  forall evs w, P w -> P (run trimesh parent evs w).
Proof.
  intros Hstep evs. unfold run.
  induction evs as [|ev evs IH]; intros w Hw; cbn; [done|].
  apply IH, Hstep, Hw.
Qed.

(** Only a move of the slider changes the slider. *)
Lemma step_slider trimesh parent w ev :
  compression_slider (window (step trimesh parent w ev)) =
  match ev with
  | SliderMoved v => setValue v (compression_slider (window w))
  | _ => compression_slider (window w)
  end.
Proof.
  destruct ev; try (unfold step, handler; apply slider_moved_slider).
  - unfold_handlers. destruct (truthy chosen); by unfold_methods.
  - unfold_handlers. by unfold_methods.
  - unfold_handlers. destruct urls as [|u rest]; [done|].
    destruct (endswith _ _); [by unfold_methods|].
    by destruct parent as [[]|]; unfold_methods.
  - unfold_handlers. unfold_methods.
    destruct (filepath (window w)) as [p|]; [|done]. cbn.
    destruct (truthy p); cbn; [|done]. by destruct (truthy chosen).
  - unfold_handlers. by unfold_methods.
  - unfold step, handler. destruct (started w) as [|out rest]; [done|].
    by rewrite perform_compression_slider.
Qed.

Lemma step_slider_in_range trimesh parent w ev :
  slider_in_range w -> slider_in_range (step trimesh parent w ev).
Proof.
  unfold slider_in_range, level. rewrite step_slider.
  destruct ev; try done.
  intros (Hmin & Hmax & Hv). cbn. rewrite Hmin, Hmax. unfold bound. lia.
Qed.

(** C6: the slider starts at 50; after any sequence of events its value is
    in [10,100]; asking it for any value [v] selects [v] bounded to
    [10,100]. *)
Theorem slider_level_in_range trimesh parent files evs :
  let w := run trimesh parent evs (initial_world files) in
  level (initial_world files) = 50 /\
  10 <= level w <= 100 /\
  forall v, level (step trimesh parent w (SliderMoved v)) = Z.max 10 (Z.min 100 v).
Proof.
  intros w. split; [reflexivity|].
  assert (Hw : slider_in_range w).
  { apply run_invariant; [apply step_slider_in_range|].
    repeat split; try reflexivity; vm_compute; discriminate. }
  destruct Hw as (Hmin & Hmax & Hv). split; [done|].
  intros v. unfold level. rewrite step_slider. cbn. by rewrite Hmin, Hmax.
Qed.

(** What a step does to the stored path and to the record of calls:
    either the path stays and no call of [load_glb_file] is recorded, or
    [load_glb_file p] ran, was recorded and stored [p]. *)
Lemma step_filepath_calls trimesh parent w ev :
  let w' := step trimesh parent w ev in
  (filepath (window w') = filepath (window w) /\
   exists new, calls w' = calls w ++ new /\
               forall p, load_glb_file_called p ∉ new) \/
  (exists p, filepath (window w') = Some p /\
             calls w' = calls w ++ [load_glb_file_called p]).
Proof.
  assert (Hsame : forall w' : World,
             filepath (window w') = filepath (window w) ->
             calls w' = calls w ->
             (filepath (window w') = filepath (window w) /\
              exists new, calls w' = calls w ++ new /\
                          forall p, load_glb_file_called p ∉ new) \/
             (exists p, filepath (window w') = Some p /\
                        calls w' = calls w ++ [load_glb_file_called p])).
  { intros w' Hp Hc. left. split; [done|]. exists [].
    split; [by rewrite app_nil_r|]. intros p. apply not_elem_of_nil. }
  destruct ev; cbv zeta.
  - unfold_handlers. destruct (truthy chosen); [|by apply Hsame].
    right. exists chosen. by unfold_methods.
  - right. exists path. unfold_handlers. by unfold_methods.
  - unfold_handlers. destruct urls as [|u rest]; [by apply Hsame|].
    destruct (endswith _ _).
    + right. exists (toLocalFile u). by unfold_methods.
    + by destruct parent as [[]|]; apply Hsame.
  - apply Hsame; unfold_handlers;
      by destruct (Z.eqb _ _); unfold_methods.
  - apply Hsame; unfold_handlers; unfold_methods;
      (destruct (filepath (window w)) as [p|] eqn:Hp; [|by rewrite ?Hp]); cbn;
      (destruct (truthy p); cbn; [|by rewrite ?Hp]);
      by destruct (truthy chosen); cbn; rewrite ?Hp.
  - apply Hsame; unfold_handlers; by unfold_methods.
  - unfold step, handler. destruct (started w) as [|out rest]; [by apply Hsame|].
    left. split; [by rewrite perform_compression_filepath|].
    eexists. split; [by rewrite perform_compression_calls|].
    intros q. cbn.
    destruct (filepath (window w)) as [p|];
      [destruct (load trimesh p (disk w)) as [scene|e];
       [destruct (fst (export trimesh scene out (disk w)))|]|];
      intros H;
      repeat (apply elem_of_cons in H as [H|H]; [discriminate H|]);
      by apply elem_of_nil in H.
Qed.

Lemma step_filepath_was_loaded trimesh parent w ev :
  filepath_was_loaded w -> filepath_was_loaded (step trimesh parent w ev).
Proof.
  unfold filepath_was_loaded. intros Hw.
  destruct (step_filepath_calls trimesh parent w ev)
    as [(Hp & new & Hc & Hnew)|(p & Hp & Hc)]; rewrite Hp, Hc.
  - destruct (filepath (window w)) as [p|].
    + apply elem_of_app. by left.
    + intros p [?|?]%elem_of_app; [by eapply Hw|by eapply Hnew].
  - apply elem_of_app. right. by apply list_elem_of_singleton.
Qed.

Lemma run_filepath_was_loaded trimesh parent files evs :
  filepath_was_loaded (run trimesh parent evs (initial_world files)).
Proof.
  apply run_invariant; [apply step_filepath_was_loaded|].
  intros p. apply not_elem_of_nil.
Qed.

(** ** The guard of [compress_file] *)

Lemma compress_file_unset chosen w :
  filepath (window w) = None ->
  compress_file chosen w
    = (Raise (AttributeError "GLBCompressorApp" "filepath"), w).
Proof. intros Hp. unfold compress_file. unfold_methods. by rewrite Hp. Qed.

(** The branch of the message is taken only with an empty stored path. *)
Lemma compress_file_message chosen w :
  log_area (window (snd (compress_file chosen w)))
    = log_area (window w) ++ ["No GLB file loaded to compress."] ->
  filepath (window w) = Some EmptyString.
Proof.
  unfold compress_file. unfold_methods.
  destruct (filepath (window w)) as [p|]; cbn.
  - destruct p as [|c p]; cbn; [done|].
    destruct (truthy chosen); cbn; intros H%(f_equal length);
      rewrite length_app in H; cbn in H; lia.
  - intros H%(f_equal length). rewrite length_app in H. cbn in H. lia.
Qed.

(** C8: in the world the constructor leaves, and after any events among
    which [load_glb_file] never ran, [compress_file] raises the
    [AttributeError] of the missing attribute; and whenever it appends
    "No GLB file loaded to compress." instead, [load_glb_file] ran before
    with the empty path. *)
Theorem compress_before_load_raises trimesh parent files evs chosen :
  let w := run trimesh parent evs (initial_world files) in
  compress_file chosen (initial_world files)
    = (Raise (AttributeError "GLBCompressorApp" "filepath"),
       initial_world files) /\
  ((forall p, load_glb_file_called p ∉ calls w) ->
   compress_file chosen w
     = (Raise (AttributeError "GLBCompressorApp" "filepath"), w)) /\
  (log_area (window (snd (compress_file chosen w)))
     = log_area (window w) ++ ["No GLB file loaded to compress."] ->
   truthy EmptyString = false /\
   load_glb_file_called EmptyString ∈ calls w).
Proof.
  intros w.
  pose proof (run_filepath_was_loaded trimesh parent files evs) as Hw.
  fold w in Hw. unfold filepath_was_loaded in Hw.
  split; [by apply compress_file_unset|]. split.
  - intros Hnone. apply compress_file_unset.
    destruct (filepath (window w)) as [p|]; [|done].
    by destruct (Hnone p).
  - intros Hp%compress_file_message. by rewrite Hp in Hw.
Qed.

Lemma compress_before_load_raises_witness :
  compress_file "out.glb"
      (run passthrough (Some AppWindow) [SliderMoved 30] (initial_world sample_files))
    = (Raise (AttributeError "GLBCompressorApp" "filepath"),
       run passthrough (Some AppWindow) [SliderMoved 30] (initial_world sample_files)) /\
  load_glb_file_called EmptyString ∈
    calls (run passthrough (Some AppWindow) [LoadGlbFile EmptyString]
               (initial_world sample_files)).
Proof.
  split.
  - apply (compress_before_load_raises passthrough (Some AppWindow)
             sample_files [SliderMoved 30] "out.glb").
    intros p H. vm_compute in H. inversion H.
  - apply (compress_before_load_raises passthrough (Some AppWindow)
             sample_files [LoadGlbFile EmptyString] "out.glb").
    reflexivity.
Defined.

(** ** Drops *)

(** What a drop with a first URL does, for each parent widget: only the
    first URL is looked at; a local path that ends with ".glb" goes to
    [load_glb_file]; any other path leaves the stored path and the record
    of calls alone, and the message is appended only when the parent
    widget is the window. *)
Lemma dropEvent_by_parent parent u rest w :
  let path := toLocalFile u in
  let r := dropEvent (drag_drop_area parent) (u :: rest) w in
  r = dropEvent (drag_drop_area parent) [u] w /\
  if endswith path ".glb"
  then r = load_glb_file path w
  else filepath (window (snd r)) = filepath (window w) /\
       calls (snd r) = calls w /\
       match parent with
       | Some AppWindow =>
           r = set_status_message
                 "Invalid file type. Only .glb files are supported." w
       | Some PlainWidget =>
           r = (Raise (AttributeError "PySide6.QtWidgets.QWidget"
                         "set_status_message"), w)
       | None => r = (Ok tt, w)
       end.
Proof.
  cbv zeta. unfold dropEvent, drag_drop_area; cbn [callback parentWidget].
  split; [reflexivity|].
  destruct (endswith (toLocalFile u) ".glb"); [done|].
  by destruct parent as [[]|]; unfold_methods.
Qed.

(** In the window the program builds, every drop of a file that is not a
    [.glb] raises and leaves the world, the log with it, as it was. *)
Lemma dropEvent_in_window u rest w :
  let path := toLocalFile u in
  let r := dropEvent window_drag_drop_area (u :: rest) w in
  if endswith path ".glb"
  then r = load_glb_file path w
  else r = (Raise (AttributeError "PySide6.QtWidgets.QWidget"
                     "set_status_message"), w).
Proof.
  cbv zeta. unfold dropEvent, window_drag_drop_area, drag_drop_area;
    cbn [callback parentWidget].
  by destruct (endswith (toLocalFile u) ".glb").
Qed.

(** C9: the code breaks the claim.  The file [notes.txt] is dropped on the
    window the constructor builds.  The path does not end with ".glb" and
    the callback is not invoked, as the claim says; but the parent widget
    is the central widget, [parent.set_status_message] raises
    [AttributeError], and the message "Invalid file type. Only .glb files
    are supported." is not reported: the log stays empty, also when the
    drop goes through the event loop. *)
Theorem drop_of_other_file_in_window_raises :
  let w := initial_world sample_files in
  let r := dropEvent window_drag_drop_area [mkQUrl "notes.txt"] w in
  endswith "notes.txt" ".glb" = false /\
  r = (Raise (AttributeError "PySide6.QtWidgets.QWidget" "set_status_message"),
       w) /\
  calls (snd r) = [] /\
  filepath (window (snd r)) = filepath (window w) /\
  ("Invalid file type. Only .glb files are supported."
     ∉ log_area (window (snd r))) /\
  log_area (window (step passthrough (parentWidget window_drag_drop_area) w
                         (Dropped [mkQUrl "notes.txt"]))) = [].
Proof.
  repeat split; try reflexivity.
  cbn. apply not_elem_of_nil.
Qed.

(** * More of the program *)

(** ** Strings *)

Lemma append_String c s t : String c s +:+ t = String c (s +:+ t).
Proof. reflexivity. Qed.

Lemma append_empty t : EmptyString +:+ t = t.
Proof. reflexivity. Qed.

Lemma substring_whole s : String.substring 0 (String.length s) s = s.
Proof. induction s as [|c s IH]; cbn; [done|]. by rewrite IH. Qed.

Lemma substring_skip pre k t :
  String.substring (String.length pre) k (pre +:+ t) = String.substring 0 k t.
Proof.
  induction pre as [|c pre IH]; [done|].
  rewrite append_String. cbn. apply IH.
Qed.

Lemma length_append s t :
  String.length (s +:+ t) = (String.length s + String.length t)%nat.
Proof.
  induction s as [|c s IH]; [done|].
  rewrite append_String. cbn. by rewrite IH.
Qed.

Lemma substring_split s : forall m,
  (m <= String.length s)%nat ->
  s = String.substring 0 m s +:+ String.substring m (String.length s - m) s.
Proof.
  induction s as [|c s IH]; intros [|m] Hm; cbn in *; try lia.
  - done.
  - by rewrite append_empty, substring_whole.
  - rewrite append_String, <- IH by lia. done.
Qed.

Lemma endswith_spec s suffix :
  endswith s suffix = true <-> exists stem, s = stem +:+ suffix.
Proof.
  unfold endswith. split.
  - destruct (Nat.leb_spec (String.length suffix) (String.length s)) as [Hk|]; [|done].
    intros E%String.eqb_eq.
    exists (String.substring 0 (String.length s - String.length suffix) s).
    pose proof (substring_split s (String.length s - String.length suffix)) as H.
    replace (String.length s - (String.length s - String.length suffix))%nat
      with (String.length suffix) in H by lia.
    rewrite E in H. apply H. lia.
  - intros [stem ->]. rewrite length_append.
    destruct (Nat.leb_spec (String.length suffix)
                (String.length stem + String.length suffix)) as [_|]; [|lia].
    replace (String.length stem + String.length suffix - String.length suffix)%nat
      with (String.length stem) by lia.
    rewrite substring_skip, substring_whole. apply String.eqb_refl.
Qed.

Lemma basename_spec p :
  exists d, p = d +:+ basename p /\
            has_sep (basename p) = false /\
            (d = EmptyString \/ exists x, d = x +:+ "/").
Proof.
  induction p as [|c r (d & Hr & Hs & Hd)]; cbn.
  - exists EmptyString. auto.
  - destruct (has_sep r) eqn:Hsep.
    + exists (String c d). split; [by rewrite append_String, <- Hr|].
      split; [done|].
      right. destruct Hd as [->|[x ->]].
      * rewrite append_empty in Hr. rewrite Hr, Hs in Hsep. done.
      * by exists (String c x).
    + destruct (Ascii.eqb_spec c "/"%char) as [->|Hc].
      * exists "/". split; [done|]. split; [done|]. right. by exists EmptyString.
      * exists EmptyString. split; [done|]. split; [|by left].
        cbn. rewrite Hsep. by destruct (Ascii.eqb_spec c "/"%char).
Qed.

(** ** More of what a run keeps *)

Section MoreRuns.

Variable trimesh : Trimesh.
Variable output_path : string.
Variable w : World.

Let w' := snd (perform_compression trimesh output_path w).

Lemma perform_compression_file_label :
  file_label (window w') = file_label (window w).
Proof. subst w'. by_cases. Qed.

Lemma perform_compression_slider_label :
  slider_label (window w') = slider_label (window w).
Proof. subst w'. by_cases. Qed.

Lemma perform_compression_started : started w' = started w.
Proof. subst w'. by_cases. Qed.

End MoreRuns.

(** Case analysis on the handler of every event but the run of a thread. *)
Ltac handler_cases :=
  unfold_handlers; unfold_methods; cbn;
  repeat match goal with
    | |- context [truthy ?c] => destruct (truthy c) eqn:?; cbn
    | |- context [endswith ?a ?b] => destruct (endswith a b) eqn:?; cbn
    | |- context [Z.eqb ?a ?b] => destruct (Z.eqb_spec a b); cbn
    | |- context [filepath (window ?w)] =>
        is_var w; destruct (filepath (window w)) eqn:?; cbn
    | |- context [match ?x with [] => _ | _ :: _ => _ end] =>
        is_var x; destruct x; cbn
    | |- context [match ?x with Some _ => _ | None => _ end] =>
        is_var x; destruct x as [[]|]; cbn
    end.

Lemma step_file_label_follows trimesh parent w ev :
  file_label_follows w -> file_label_follows (step trimesh parent w ev).
Proof.
  unfold file_label_follows. intros Hw.
  destruct ev; try (handler_cases; congruence).
  unfold step, handler. destruct (started w) as [|out rest]; [done|].
  by rewrite perform_compression_file_label, perform_compression_filepath.
Qed.

(** X1: after any sequence of events the file label reads "No file
    loaded." when no path is stored and "Loaded file: " followed by the
    base name of the stored path otherwise. *)
Theorem file_label_follows_filepath trimesh parent files evs :
  let w := run trimesh parent evs (initial_world files) in
  file_label (window w) =
    match filepath (window w) with
    | None => "No file loaded."
    | Some p => "Loaded file: " +:+ basename p
    end.
Proof.
  apply (run_invariant trimesh parent file_label_follows);
    [apply step_file_label_follows | reflexivity].
Qed.

Lemma step_slider_label_shows_value trimesh parent w ev :
  slider_label_shows_value w -> slider_label_shows_value (step trimesh parent w ev).
Proof.
  unfold slider_label_shows_value, level. intros Hw.
  destruct ev; try (handler_cases; congruence).
  unfold step, handler. destruct (started w) as [|out rest]; [done|].
  by rewrite perform_compression_slider_label, perform_compression_slider.
Qed.

(** X2: after any sequence of events the slider label reads "Compression
    Level: " followed by the value of the slider and "%". *)
Theorem slider_label_follows_slider trimesh parent files evs :
  let w := run trimesh parent evs (initial_world files) in
  slider_label (window w) = "Compression Level: " +:+ str_of_int (level w) +:+ "%".
Proof.
  apply (run_invariant trimesh parent slider_label_shows_value);
    [apply step_slider_label_shows_value | reflexivity].
Qed.

Lemma step_log_grows trimesh parent w ev :
  exists new, log_area (window (step trimesh parent w ev)) = log_area (window w) ++ new.
Proof.
  destruct ev;
    try (handler_cases;
         first [ by eexists | by exists []; rewrite app_nil_r
               | eexists; by rewrite <- ?(assoc_L (++)) ]).
  unfold step, handler. destruct (started w) as [|out rest].
  - exists []. by rewrite app_nil_r.
  - eexists. by rewrite perform_compression_log.
Qed.

(** X3: the log is only appended to: from any world and after any
    sequence of events the old log is a prefix of the new one. *)
Theorem log_only_grows trimesh parent evs w :
  exists new, log_area (window (run trimesh parent evs w)) = log_area (window w) ++ new.
Proof.
  apply (run_invariant trimesh parent
           (fun w' => exists new, log_area (window w') = log_area (window w) ++ new)).
  - intros w1 ev [new1 H1].
    destruct (step_log_grows trimesh parent w1 ev) as [new2 H2].
    exists (new1 ++ new2). by rewrite H2, H1, (assoc_L (++)).
  - exists []. by rewrite app_nil_r.
Qed.

Lemma step_button trimesh parent w ev :
  compress_button (window w) = true ->
  compress_button (window (step trimesh parent w ev)) = true.
Proof.
  intros Hw. destruct ev; try (handler_cases; congruence).
  unfold step, handler. destruct (started w) as [|out rest]; [done|].
  by rewrite perform_compression_button.
Qed.

(** X4: the compress button is enabled after any sequence of events: the
    program never disables it. *)
Theorem compress_button_always_enabled trimesh parent files evs :
  compress_button (window (run trimesh parent evs (initial_world files))) = true.
Proof.
  apply (run_invariant trimesh parent
           (fun w => compress_button (window w) = true));
    [apply step_button | reflexivity].
Qed.

(** ** Once a file is loaded *)

Lemma compress_file_set chosen w p :
  filepath (window w) = Some p -> fst (compress_file chosen w) = Ok tt.
Proof.
  intros Hp. unfold compress_file. unfold_methods. rewrite Hp. cbn.
  destruct (truthy p); cbn; [|done]. by destruct (truthy chosen).
Qed.

Lemma step_filepath_stays trimesh parent w ev :
  is_Some (filepath (window w)) ->
  is_Some (filepath (window (step trimesh parent w ev))).
Proof.
  intros Hw.
  destruct (step_filepath_calls trimesh parent w ev)
    as [(Hp & _)|(p & Hp & _)]; rewrite Hp; [done|by eexists].
Qed.

(** X5: once a path is stored, a path stays stored whatever happens next,
    and [compress_file] no longer raises. *)
Theorem loaded_stays_loaded trimesh parent w p evs chosen :
  filepath (window w) = Some p ->
  let w' := run trimesh parent evs w in
  is_Some (filepath (window w')) /\
  fst (compress_file chosen w') = Ok tt.
Proof.
  intros Hp w'.
  assert (Hw' : is_Some (filepath (window w'))).
  { apply run_invariant; [apply step_filepath_stays|by eexists]. }
  split; [done|]. destruct Hw' as [q Hq]. by eapply compress_file_set.
Qed.

(** ** The guard message and the window's own controls *)

Lemma endswith_glb_truthy s : endswith s ".glb" = true -> truthy s = true.
Proof. by destruct s. Qed.

Ltac not_the_message :=
  repeat (rewrite not_elem_of_app; split); try done;
  rewrite list_elem_of_singleton; discriminate.

Lemma step_guard_never_fires trimesh parent w ev :
  is_direct_load ev = false ->
  guard_never_fires w -> guard_never_fires (step trimesh parent w ev).
Proof.
  unfold guard_never_fires, no_file_message. intros Hev [Hp Hlog].
  destruct ev; try discriminate Hev.
  - handler_cases; (split; [intros ? [= <-]; eauto|]); try done; not_the_message.
  - handler_cases; (split; [intros ? [= <-]; eauto using endswith_glb_truthy|]);
      try done; not_the_message.
  - handler_cases; (split; [eauto|]); done.
  - handler_cases; split; try done;
      try (intros q ?; simplify_eq; by eauto);
      exfalso;
      match goal with
      | Ht : truthy ?s = false, H : forall p, Some ?s = Some p -> _ |- _ =>
          rewrite (H s eq_refl) in Ht; discriminate Ht
      end.
  - handler_cases; (split; [eauto|]); not_the_message.
  - unfold step, handler. destruct (started w) as [|out rest]; [done|].
    rewrite perform_compression_filepath, perform_compression_log. cbn.
    split; [done|].
    destruct (filepath (window w)) as [p|];
      [destruct (load trimesh p (disk w)) as [scene|e];
       [destruct (fst (export trimesh scene out (disk w)))|]|];
      rewrite not_elem_of_app; (split; [done|]);
      rewrite !not_elem_of_cons; repeat split;
      try discriminate; apply not_elem_of_nil.
Qed.

Lemma run_guard_never_fires trimesh parent evs : forall w,
  forallb (fun ev => negb (is_direct_load ev)) evs = true ->
  guard_never_fires w -> guard_never_fires (run trimesh parent evs w).
Proof.
  induction evs as [|ev evs IH]; intros w Hevs Hw; [done|].
  cbn in Hevs. apply andb_true_iff in Hevs as [Hev Hevs].
  apply (IH (step trimesh parent w ev) Hevs).
  apply step_guard_never_fires; [by destruct (is_direct_load ev)|done].
Qed.

(** X6: when [load_glb_file] is only called through the dialog and drops,
    the line "No GLB file loaded to compress." never gets into the log,
    not even by one more click on the button. *)
Theorem guard_message_unreachable_from_controls trimesh parent files evs chosen :
  forallb (fun ev => negb (is_direct_load ev)) evs = true ->
  let w := run trimesh parent evs (initial_world files) in
  ("No GLB file loaded to compress." ∉ log_area (window w)) /\
  ("No GLB file loaded to compress." ∉
     log_area (window (snd (compress_file chosen w)))).
Proof.
  intros Hevs w.
  assert (Hw : guard_never_fires w).
  { apply run_guard_never_fires; [done|].
    split; [done|apply not_elem_of_nil]. }
  split; [apply Hw|].
  apply (step_guard_never_fires trimesh parent w (CompressClicked chosen) eq_refl Hw).
Qed.

Lemma guard_message_unreachable_from_controls_witness :
  let w := run passthrough (Some AppWindow)
             [CompressClicked "out.glb"; Dropped [mkQUrl "a.glb"];
              OpenFileDialog EmptyString; CompressClicked "out.glb"; ThreadRuns]
             (initial_world sample_files) in
  ("No GLB file loaded to compress." ∉ log_area (window w)) /\
  ("No GLB file loaded to compress." ∉
     log_area (window (snd (compress_file "again.glb" w)))).
Proof.
  apply (guard_message_unreachable_from_controls passthrough (Some AppWindow)
           sample_files
           [CompressClicked "out.glb"; Dropped [mkQUrl "a.glb"];
            OpenFileDialog EmptyString; CompressClicked "out.glb"; ThreadRuns]
           "again.glb").
  reflexivity.
Defined.

Lemma loaded_stays_loaded_witness :
  let w' := run passthrough (Some AppWindow)
              [SliderMoved 30; Dropped [mkQUrl "notes.txt"]; ThreadRuns] loaded_a in
  is_Some (filepath (window w')) /\
  fst (compress_file "out.glb" w') = Ok tt.
Proof.
  apply (loaded_stays_loaded passthrough (Some AppWindow) loaded_a "a.glb"
           [SliderMoved 30; Dropped [mkQUrl "notes.txt"]; ThreadRuns] "out.glb").
  reflexivity.
Defined.

(** ** The disk and the library *)

(** X7: a handler other than the run of a started thread leaves the disk
    as it is and records no call of the library: loading a file only
    stores its path. *)
Theorem only_a_thread_touches_the_disk trimesh parent w ev :
  ev <> ThreadRuns \/ started w = [] ->
  let w' := step trimesh parent w ev in
  disk w' = disk w /\
  exists new, calls w' = calls w ++ new /\
              forall c, c ∈ new -> is_library_call c = false.
Proof.
  intros Hev w'. subst w'.
  assert (Hnil : forall cs : list call, cs = cs ++ [] /\
            forall c, c ∈ ([] : list call) -> is_library_call c = false).
  { intros cs. split; [by rewrite app_nil_r|]. by intros c ?%elem_of_nil. }
  assert (Hone : forall p c,
            c ∈ [load_glb_file_called p] -> is_library_call c = false).
  { by intros p c ->%list_elem_of_singleton. }
  destruct ev;
    try (handler_cases; (split; [done|]);
         first [ exists []; by apply Hnil
               | eexists; split; [done|by apply Hone] ]).
  destruct Hev as [?|Hs]; [done|].
  unfold step, handler. rewrite Hs. split; [done|]. exists []. apply Hnil.
Qed.

Lemma only_a_thread_touches_the_disk_witness :
  let w' := step passthrough (Some AppWindow) (initial_world sample_files)
              (Dropped [mkQUrl "missing.glb"]) in
  disk w' = disk (initial_world sample_files) /\
  exists new, calls w' = calls (initial_world sample_files) ++ new /\
              forall c, c ∈ new -> is_library_call c = false.
Proof.
  apply (only_a_thread_touches_the_disk passthrough (Some AppWindow)
           (initial_world sample_files) (Dropped [mkQUrl "missing.glb"])).
  left. discriminate.
Defined.

(** ** Clicks and threads *)

(** X8: [compress_file] starts a thread exactly when the stored path and
    the path chosen in the save dialog are both non-empty; it starts at
    most one, and it changes neither the disk, the record of calls nor
    the stored path. *)
Theorem compress_file_starts_a_thread_iff chosen w :
  let r := compress_file chosen w in
  (started (snd r) = started w ++ [chosen] <->
   exists p, filepath (window w) = Some p /\
             truthy p = true /\ truthy chosen = true) /\
  (started (snd r) = started w ++ [chosen] \/ started (snd r) = started w) /\
  disk (snd r) = disk w /\
  calls (snd r) = calls w /\
  filepath (window (snd r)) = filepath (window w).
Proof.
  assert (Hne : forall l : list string, l = l ++ [chosen] -> False).
  { intros l H%(f_equal length). rewrite length_app in H. cbn in H. lia. }
  unfold compress_file. unfold_methods. cbn.
  destruct (filepath (window w)) as [p|] eqn:Hp; cbn.
  - destruct (truthy p) eqn:Ht; cbn.
    + destruct (truthy chosen) eqn:Hc; cbn.
      * repeat split; eauto.
      * repeat split; eauto; try (by intros ?%Hne).
        intros (? & ? & ? & ?). done.
    + repeat split; eauto; try (by intros ?%Hne).
      intros (q & [= <-] & ? & ?). congruence.
  - repeat split; eauto; try (by intros ?%Hne).
    intros (q & ? & _). done.
Qed.

(** X9: with a file loaded, clicks on the button with chosen output paths
    start one thread each, in order, whether or not an earlier thread
    has run; nothing else changes. *)
Theorem clicks_queue_threads trimesh parent p outs : forall w,
  filepath (window w) = Some p -> truthy p = true ->
  forallb truthy outs = true ->
  let w' := run trimesh parent (map CompressClicked outs) w in
  started w' = started w ++ outs /\
  window w' = window w /\ disk w' = disk w /\ calls w' = calls w.
Proof.
  induction outs as [|out outs IH]; intros w Hp Ht Houts; cbn.
  - by rewrite app_nil_r.
  - cbn in Houts. apply andb_true_iff in Houts as [Hout Houts].
    assert (Hstep : step trimesh parent w (CompressClicked out)
                    = mkWorld (window w) (disk w) (started w ++ [out]) (calls w)).
    { unfold step, handler, compress_file. unfold_methods.
      by rewrite Hp; cbn; rewrite Ht, Hout. }
    fold (run trimesh parent (map CompressClicked outs)
              (step trimesh parent w (CompressClicked out))).
    rewrite Hstep.
    destruct (IH (mkWorld (window w) (disk w) (started w ++ [out]) (calls w))
                Hp Ht Houts) as (Hs & Hw & Hd & Hc).
    cbn in *. by rewrite Hs, Hw, Hd, Hc, <- (assoc_L (++)).
Qed.

Lemma clicks_queue_threads_witness :
  let w' := run passthrough (Some AppWindow)
              (map CompressClicked ["one.glb"; "two.glb"]) loaded_a in
  started w' = started loaded_a ++ ["one.glb"; "two.glb"] /\
  window w' = window loaded_a /\ disk w' = disk loaded_a /\
  calls w' = calls loaded_a.
Proof.
  apply (clicks_queue_threads passthrough (Some AppWindow) "a.glb"
           ["one.glb"; "two.glb"] loaded_a); reflexivity.
Defined.

(** X10: after a run the progress bar shows 100 when load and export
    succeeded, 90 when the export raised, and 10 when the path is not set
    or the load raised. *)
Theorem progress_bar_after_run trimesh output_path w :
  progress_bar (window (snd (perform_compression trimesh output_path w))) =
  match filepath (window w) with
  | None => 10
  | Some p =>
      match load trimesh p (disk w) with
      | Raise _ => 10
      | Ok scene =>
          match fst (export trimesh scene output_path (disk w)) with
          | Raise _ => 90
          | Ok _ => 100
          end
      end
  end.
Proof. by_cases. Qed.

(** X11: a run changes neither the stored path, the file label, the
    slider, its label nor the list of started threads. *)
Theorem perform_compression_keeps_the_rest trimesh output_path w :
  let w' := snd (perform_compression trimesh output_path w) in
  filepath (window w') = filepath (window w) /\
  file_label (window w') = file_label (window w) /\
  slider_label (window w') = slider_label (window w) /\
  compression_slider (window w') = compression_slider (window w) /\
  started w' = started w.
Proof.
  cbv zeta.
  by rewrite perform_compression_filepath, perform_compression_file_label,
    perform_compression_slider_label, perform_compression_slider,
    perform_compression_started.
Qed.

Lemma step_progress_bar trimesh parent w ev :
  ev <> ThreadRuns ->
  progress_bar (window (step trimesh parent w ev)) = progress_bar (window w) /\
  forall v m, update_progress_called v m ∈ calls (step trimesh parent w ev) ->
              update_progress_called v m ∈ calls w.
Proof.
  intros Hev. destruct ev; try done; handler_cases; (split; [done|]);
    intros pv pm; rewrite ?elem_of_app, ?list_elem_of_singleton;
    try done; by intros [?|?].
Qed.

Lemma perform_compression_progress_bar trimesh output_path w :
  progress_bar (window (snd (perform_compression trimesh output_path w))) =
  match filepath (window w) with
  | None => 10
  | Some p =>
      match load trimesh p (disk w) with
      | Raise _ => 10
      | Ok scene =>
          match fst (export trimesh scene output_path (disk w)) with
          | Raise _ => 90
          | Ok _ => 100
          end
      end
  end.
Proof. by_cases. Qed.

Lemma step_bar_tells_the_truth trimesh parent w ev :
  bar_tells_the_truth w -> bar_tells_the_truth (step trimesh parent w ev).
Proof.
  intros (Hv & H100 & H0).
  assert (Hdec : ev = ThreadRuns \/ ev <> ThreadRuns)
    by (destruct ev; (by left) || (by right)).
  destruct Hdec as [->|Hev].
  - unfold step, handler. destruct (started w) as [|out rest]; [done|].
    unfold bar_tells_the_truth.
    rewrite perform_compression_progress_bar, perform_compression_log. cbn.
    destruct (filepath (window w)) as [p|];
      [destruct (load trimesh p (disk w)) as [scene|e];
       [destruct (fst (export trimesh scene out (disk w)))|]|];
      (split; [lia|]); (split; [|intros Hb; lia]); intros Hb; try lia.
    rewrite elem_of_app, !elem_of_cons. tauto.
  - destruct (step_progress_bar trimesh parent w ev Hev) as [Hb Hc].
    destruct (step_log_grows trimesh parent w ev) as [new Hl].
    unfold bar_tells_the_truth. rewrite Hb, Hl. split; [done|]. split.
    + intros ?. apply elem_of_app. left. by apply H100.
    + intros Hz pv pm Hin. by eapply H0, Hc.
Qed.

(** X12: after any sequence of events the progress bar shows 0, 10, 90 or
    100; when it shows 100 the log contains "Compression complete.", and
    when it shows 0 no progress was ever reported. *)
Theorem progress_bar_tells_the_truth trimesh parent files evs :
  let w := run trimesh parent evs (initial_world files) in
  (progress_bar (window w) = 0 \/ progress_bar (window w) = 10 \/
   progress_bar (window w) = 90 \/ progress_bar (window w) = 100) /\
  (progress_bar (window w) = 100 -> "Compression complete." ∈ log_area (window w)) /\
  (progress_bar (window w) = 0 ->
   forall v m, update_progress_called v m ∉ calls w).
Proof.
  apply (run_invariant trimesh parent bar_tells_the_truth);
    [apply step_bar_tells_the_truth|].
  split; [by left|]. split; [done|]. intros _ v m. apply not_elem_of_nil.
Qed.

Lemma progress_bar_tells_the_truth_witness :
  "Compression complete." ∈
    log_area (window (run passthrough (Some AppWindow)
                        [Dropped [mkQUrl "a.glb"]; CompressClicked "out.glb"; ThreadRuns]
                        (initial_world sample_files))).
Proof.
  apply (progress_bar_tells_the_truth passthrough (Some AppWindow) sample_files
           [Dropped [mkQUrl "a.glb"]; CompressClicked "out.glb"; ThreadRuns]).
  reflexivity.
Defined.

(** ** Which file a thread compresses *)

Lemma split_app {A} (old new before after : list A) x :
  old ++ new = before ++ x :: after ->
  (exists l, old = before ++ x :: l) \/
  (exists l, before = old ++ l /\ new = l ++ x :: after).
Proof.
  intros H. apply app_eq_app in H as [l [[-> H]|[-> H]]].
  - destruct l as [|y l]; cbn in H.
    + right. exists []. by rewrite !app_nil_r.
    + injection H as <- ->. left. by exists l.
  - right. by exists l.
Qed.

Lemma loads_of_app cs1 cs2 : loads_of (cs1 ++ cs2) = loads_of cs1 ++ loads_of cs2.
Proof. apply omap_app. Qed.

Lemma latest_load_app_no_load cs l :
  loads_of l = [] -> latest_load (cs ++ l) = latest_load cs.
Proof.
  intros Hl. unfold latest_load. by rewrite loads_of_app, Hl, app_nil_r.
Qed.

(** A step that records nothing of the library and either keeps the path
    or stores the path of the one load it records keeps the invariant. *)
Lemma threads_load_latest_extend w w' new :
  threads_load_latest w ->
  calls w' = calls w ++ new ->
  (forall p, trimesh_load_called p ∉ new) ->
  latest_load (calls w ++ new) = filepath (window w') ->
  threads_load_latest w'.
Proof.
  intros [Hl Hs] Hc Hnew Hl'. split; [by rewrite Hc|].
  intros before p after Hsplit. rewrite Hc in Hsplit.
  apply split_app in Hsplit as [[l Hold]|[l [-> Hn]]]; [by eapply Hs|].
  destruct (Hnew p). rewrite Hn. apply elem_of_app. right. by left.
Qed.

Lemma perform_compression_new_calls trimesh out w :
  exists new,
    calls (snd (perform_compression trimesh out w)) = calls w ++ new /\
    loads_of new = [] /\
    forall l p after, new = l ++ trimesh_load_called p :: after ->
                      filepath (window w) = Some p.
Proof.
  eexists. split; [apply perform_compression_calls|].
  destruct (filepath (window w)) as [p|];
    [destruct (load trimesh p (disk w)) as [scene|e];
     [destruct (fst (export trimesh scene out (disk w)))|]|];
    (split; [done|]); intros l q after Hn;
    match type of Hn with
    | ?new = _ =>
        assert (Hin : trimesh_load_called q ∈ new)
          by (rewrite Hn; apply elem_of_app; right; by left)
    end;
    clear Hn;
    repeat (apply elem_of_cons in Hin as [Hin|Hin]; [by simplify_eq|]);
    by apply elem_of_nil in Hin.
Qed.

Lemma step_no_library_call trimesh parent w ev new :
  ev <> ThreadRuns ->
  calls (step trimesh parent w ev) = calls w ++ new ->
  forall p, trimesh_load_called p ∉ new.
Proof.
  intros Hev Hc p Hin.
  assert (Hold : forall l : list call, l = l ++ new -> new = []).
  { intros l H. apply (app_inv_head l). by rewrite app_nil_r. }
  destruct ev; try done; revert Hc; handler_cases; intros Hc;
    try (apply Hold in Hc as ->; by apply elem_of_nil in Hin);
    apply app_inv_head in Hc as <-;
    by apply list_elem_of_singleton in Hin.
Qed.

Lemma step_threads_load_latest trimesh parent w ev :
  threads_load_latest w -> threads_load_latest (step trimesh parent w ev).
Proof.
  intros Hw.
  assert (Hdec : ev = ThreadRuns \/ ev <> ThreadRuns)
    by (destruct ev; (by left) || (by right)).
  destruct Hdec as [->|Hev].
  - unfold step, handler. destruct (started w) as [|out rest]; [done|].
    set (w2 := mkWorld (window w) (disk w) rest (calls w)).
    destruct (perform_compression_new_calls trimesh out w2)
      as (new & Hc & Hno & Hp).
    destruct Hw as [Hl Hs]. split.
    + rewrite Hc, perform_compression_filepath, latest_load_app_no_load by done.
      apply Hl.
    + intros before p after Hsplit. rewrite Hc in Hsplit.
      apply split_app in Hsplit as [[l Hold]|[l [-> Hn]]]; [by eapply Hs|].
      rewrite latest_load_app_no_load.
      * change (calls w2) with (calls w). rewrite Hl. by eapply Hp.
      * rewrite Hn, loads_of_app in Hno. by apply app_eq_nil in Hno as [? _].
  - destruct (step_filepath_calls trimesh parent w ev)
      as [(Hp & new & Hc & Hnew)|(p & Hp & Hc)].
    + apply (threads_load_latest_extend w _ new Hw Hc).
      * by eapply step_no_library_call.
      * rewrite latest_load_app_no_load, Hp; [apply Hw|].
        clear -Hnew. induction new as [|c new IH]; [done|].
        destruct c; cbn; try (apply IH; intros q Hq; eapply Hnew; by right).
        destruct (Hnew p). by left.
    + apply (threads_load_latest_extend w _ [load_glb_file_called p] Hw Hc).
      * by intros q ?%list_elem_of_singleton.
      * unfold latest_load. by rewrite loads_of_app, last_app, Hp.
Qed.

(** X13: after any sequence of events the stored path is the argument of
    the latest call of [load_glb_file], and every call of [trimesh.load]
    in the record got the argument of the latest call of [load_glb_file]
    before it. *)
Theorem each_thread_loads_the_latest_file trimesh parent files evs :
  let w := run trimesh parent evs (initial_world files) in
  latest_load (calls w) = filepath (window w) /\
  forall before p after,
    calls w = before ++ trimesh_load_called p :: after ->
    latest_load before = Some p.
Proof.
  apply (run_invariant trimesh parent threads_load_latest);
    [apply step_threads_load_latest|].
  split; [done|]. intros [|? ?] ? ? ?; done.
Qed.

(** ** Resources, drops and loads *)

Lemma prefix_append a b : String.prefix a (a +:+ b) = true.
Proof.
  induction a as [|c a IH]; [by destruct b|].
  rewrite append_String. cbn. by destruct (ascii_dec c c).
Qed.

Lemma has_sep_plain_basename n : has_sep n = false -> basename n = n.
Proof.
  destruct n as [|c r]; [done|]. cbn.
  destruct (Ascii.eqb c "/"%char); [done|]. by intros ->.
Qed.

Lemma has_sep_after_slash x n : has_sep (x +:+ "/" +:+ n) = true.
Proof.
  induction x as [|c x IH]; [done|].
  rewrite append_String. cbn. rewrite IH. by destruct (Ascii.eqb c "/"%char).
Qed.

Lemma basename_after_slash x n :
  has_sep n = false -> basename (x +:+ "/" +:+ n) = n.
Proof.
  intros Hn. induction x as [|c x IH].
  - rewrite append_empty. change ("/" +:+ n) with (String "/"%char n).
    cbn. by rewrite Hn.
  - rewrite append_String. cbn. by rewrite has_sep_after_slash.
Qed.

Lemma append_assoc a b c : (a +:+ b) +:+ c = a +:+ b +:+ c.
Proof.
  induction a as [|x a IH]; [done|]. by rewrite !append_String, IH.
Qed.

(** X14: [resource_path] raises exactly when [sys.frozen] is set and
    [sys._MEIPASS] is missing. *)
Theorem resource_path_raises_iff sys relative_path :
  (exists e, resource_path sys relative_path = Raise e) <->
  frozen sys = true /\ _MEIPASS sys = None.
Proof.
  unfold resource_path.
  destruct (frozen sys), (_MEIPASS sys) as [base_path|];
    (split; [intros [e H]|intros [H1 H2]]);
    try discriminate; try done; by eexists.
Qed.

(** X15: with the base directory available (the bundle directory when
    frozen, the current directory otherwise), [resource_path] returns an
    absolute [relative_path] unchanged; any other [relative_path] gives
    a path that starts with the base directory and ends with
    [relative_path], whose base name is [relative_path] when that is a
    plain file name. *)
Theorem resource_path_under_base sys relative_path base_path :
  (if frozen sys then _MEIPASS sys = Some base_path
   else abspath_dot sys = base_path) ->
  exists r,
    resource_path sys relative_path = Ok r /\
    if String.prefix "/" relative_path
    then r = relative_path
    else String.prefix base_path r = true /\
         endswith r relative_path = true /\
         (truthy relative_path = true -> has_sep relative_path = false ->
          basename r = relative_path).
Proof.
  intros Hbase.
  assert (Hr : resource_path sys relative_path = Ok (join base_path relative_path)).
  { unfold resource_path. destruct (frozen sys); by rewrite Hbase. }
  exists (join base_path relative_path). split; [done|].
  unfold join. destruct (String.prefix "/" relative_path) eqn:Habs; [done|].
  destruct (truthy base_path) eqn:Ht; cbn.
  - destruct (endswith base_path "/") eqn:He.
    + split; [apply prefix_append|]. split; [apply endswith_spec; by eexists|].
      intros _ Hn. apply endswith_spec in He as [x ->].
      rewrite append_assoc. by apply basename_after_slash.
    + split; [apply prefix_append|].
      split; [apply endswith_spec; exists (base_path +:+ "/");
              by rewrite append_assoc|].
      intros _ Hn. by apply basename_after_slash.
  - destruct base_path; [|done]. rewrite append_empty.
    split; [by destruct relative_path|].
    split; [apply endswith_spec; by exists EmptyString|].
    intros _ Hn. by apply has_sep_plain_basename.
Qed.

Lemma resource_path_under_base_witness :
  exists r,
    resource_path (mkSys true (Some "/tmp/_MEI1234") "/home/u/app") "bottomlogo.ico" = Ok r /\
    String.prefix "/tmp/_MEI1234" r = true /\
    endswith r "bottomlogo.ico" = true /\
    (truthy "bottomlogo.ico" = true -> has_sep "bottomlogo.ico" = false ->
     basename r = "bottomlogo.ico").
Proof.
  apply (resource_path_under_base (mkSys true (Some "/tmp/_MEI1234") "/home/u/app")
           "bottomlogo.ico" "/tmp/_MEI1234").
  reflexivity.
Defined.

Lemma each_thread_loads_the_latest_file_witness :
  latest_load [load_glb_file_called "a.glb"; load_glb_file_called "b.glb";
               update_progress_called 10 "Loading GLB file..."]
    = Some "b.glb".
Proof.
  apply (proj2 (each_thread_loads_the_latest_file passthrough (Some AppWindow)
                  sample_files
                  [LoadGlbFile "a.glb"; CompressClicked "out.glb";
                   LoadGlbFile "b.glb"; ThreadRuns])
           [load_glb_file_called "a.glb"; load_glb_file_called "b.glb";
            update_progress_called 10 "Loading GLB file..."]
           "b.glb"
           [update_progress_called 90 "Saving compressed file...";
            scene_export_called "out.glb";
            update_progress_called 100 "Compression complete."]).
  vm_compute. reflexivity.
Defined.

(** X16: a drop whose first URL has a local path of the form
    [stem ++ ".glb"] does what [load_glb_file] does with that path and
    stores it; any other drop leaves the stored path, the record of calls
    and the file label as they are. *)
Theorem dropEvent_accepts_exactly_glb_suffix parent u rest w :
  let path := toLocalFile u in
  let r := dropEvent (drag_drop_area parent) (u :: rest) w in
  ((exists stem, path = stem +:+ ".glb") /\
   r = load_glb_file path w /\
   filepath (window (snd r)) = Some path) \/
  (~ (exists stem, path = stem +:+ ".glb") /\
   filepath (window (snd r)) = filepath (window w) /\
   calls (snd r) = calls w /\
   file_label (window (snd r)) = file_label (window w)).
Proof.
  cbv zeta. unfold dropEvent, drag_drop_area; cbn [callback parentWidget].
  destruct (endswith (toLocalFile u) ".glb") eqn:He.
  - left. split; [by apply endswith_spec|]. split; [done|].
    unfold load_glb_file. by unfold_methods.
  - right. split.
    + intros Hs%endswith_spec. congruence.
    + by destruct parent as [[]|]; unfold_methods.
Qed.

(** X17: [load_glb_file] returns normally for every path, stores it and
    leaves the disk alone; the file label and the new last line of the
    log are "Loaded file: " followed by the part of the path after its
    last slash. *)
Theorem load_glb_file_shows_the_file_name path w :
  let w' := snd (load_glb_file path w) in
  fst (load_glb_file path w) = Ok tt /\
  filepath (window w') = Some path /\
  disk w' = disk w /\
  exists dir name,
    path = dir +:+ name /\
    has_sep name = false /\
    (dir = EmptyString \/ exists x, dir = x +:+ "/") /\
    file_label (window w') = "Loaded file: " +:+ name /\
    log_area (window w') = log_area (window w) ++ ["Loaded file: " +:+ name].
Proof.
  destruct (basename_spec path) as (dir & Hp & Hs & Hd).
  cbv zeta. unfold load_glb_file. unfold_methods. cbn.
  repeat split. exists dir, (basename path). done.
Qed.

(** X18: a handler raises in exactly two situations: the button is
    clicked while no path is stored, or a file that is not a [.glb] is
    dropped while the parent widget has no [set_status_message]. *)
Theorem handler_raises_iff trimesh parent ev w :
  (exists e, fst (handler trimesh parent ev w) = Raise e) <->
  (exists chosen, ev = CompressClicked chosen /\ filepath (window w) = None) \/
  (exists u rest, ev = Dropped (u :: rest) /\
                  endswith (toLocalFile u) ".glb" = false /\
                  parent = Some PlainWidget).
Proof.
  split.
  - intros [e He]. destruct ev.
    + revert He. by handler_cases.
    + revert He. by handler_cases.
    + right. destruct urls as [|u rest]; [done|]. exists u, rest.
      revert He. unfold handler, dropEvent, drag_drop_area;
        cbn [callback parentWidget].
      destruct (endswith (toLocalFile u) ".glb");
        [unfold load_glb_file; by unfold_methods|].
      by destruct parent as [[]|].
    + revert He. by handler_cases.
    + left. exists chosen. split; [done|].
      revert He. unfold handler, compress_file. unfold_methods.
      destruct (filepath (window w)) as [p|]; [|done]. cbn.
      destruct (truthy p); cbn; [|done]. by destruct (truthy chosen).
    + revert He. by handler_cases.
    + revert He. unfold handler. destruct (started w) as [|out rest]; [done|].
      by rewrite perform_compression_returns.
  - intros [(chosen & -> & Hp)|(u & rest & -> & He & ->)].
    + eexists. unfold handler. by rewrite compress_file_unset.
    + eexists. unfold handler, dropEvent, drag_drop_area;
        cbn [callback parentWidget]. by rewrite He.
Qed.
